(** * KYC risk plugin: the rule evaluator of [plugins/kyc_risk_plugin.py]

    The plugin has four methods.  Each takes Python [str] values and returns
    a [str]: a status line made of an emoji marker, a space and a message.
    The development models a Python [str] as the list of its Unicode code
    points, the operators [in], [lower], [or], [any] and the f-strings as
    the functions below, and then states what the four methods compute. *)

From Stdlib Require Import List NArith Bool Ascii String Lia Permutation.
Import ListNotations.
Local Open Scope N_scope.

(** ** Python strings *)

Module Py.

(** A [str] is a sequence of code points. *)
Definition codepoint := N.
Definition str := list codepoint.

(** An ASCII literal of the source, as a [str]. *)
Definition lit (s : string) : str := map N_of_ascii (list_ascii_of_string s).

(** [a == b] on [str]. *)
Fixpoint str_eqb (a b : str) : bool :=
  match a, b with
  | [], [] => true
  | x :: a', y :: b' => (x =? y) && str_eqb a' b'
  | _, _ => false
  end.

(** [x in l] for a list [l] of [str]: some element is equal to [x]. *)
Definition list_in (x : str) (l : list str) : bool :=
  existsb (fun y => str_eqb x y) l.

(** [s.startswith(p)]. *)
Fixpoint starts_with (p s : str) : bool :=
  match p, s with
  | [], _ => true
  | _ :: _, [] => false
  | a :: p', b :: s' => (a =? b) && starts_with p' s'
  end.

(** [sub in s] for two [str]: [sub] occurs in [s] at some offset. *)
Fixpoint str_in (sub s : str) : bool :=
  starts_with sub s ||
  match s with
  | [] => false
  | _ :: s' => str_in sub s'
  end.

(** *** [str.lower]

    [lower] maps each code point of the string to its full lowercase
    mapping, which depends on the code point and, for the capital sigma
    alone, on what stands before and after it.  The ASCII range is mapped
    by the interpreter's fast path: the letters A to Z move up by 32 and
    nothing else changes.  Outside ASCII the mapping comes from the Unicode
    tables of the interpreter; two entries of those tables matter for
    keywords made of ASCII letters and are written out: the Kelvin sign
    U+212A becomes the letter k, and the dotted capital I U+0130 becomes
    i followed by the combining dot U+0307.  The rest of the table is the
    parameter [unicode_lower]. *)

Definition KELVIN_SIGN : codepoint := 0x212A.
Definition CAPITAL_I_WITH_DOT : codepoint := 0x130.
Definition COMBINING_DOT_ABOVE : codepoint := 0x307.

Definition is_ascii (c : codepoint) : bool := c <? 128.

Definition is_ascii_upper (c : codepoint) : bool := (65 <=? c) && (c <=? 90).

Definition ascii_lower (c : codepoint) : codepoint :=
  if is_ascii_upper c then c + 32 else c.

Section Lower.

(** [unicode_lower before c after]: the lowercase mapping of the
    non-ASCII code point [c] standing between [before] and [after]. *)
Variable unicode_lower : str -> codepoint -> str -> str.

Definition lower_cp (before : str) (c : codepoint) (after : str) : str :=
  if is_ascii c then [ascii_lower c]
  else if c =? KELVIN_SIGN then [107]
  else if c =? CAPITAL_I_WITH_DOT then [105; COMBINING_DOT_ABOVE]
  else unicode_lower before c after.

Fixpoint lower_from (before s : str) : str :=
  match s with
  | [] => []
  | c :: after => lower_cp before c after ++ lower_from (before ++ [c]) after
  end.

Definition lower (s : str) : str := lower_from [] s.

End Lower.

(** What the development relies on about the rest of the table: a
    non-ASCII code point other than the two above lowers to at least one
    code point, and to no ASCII one.  In the Unicode character database
    U+0130 and U+212A are the only non-ASCII code points with an ASCII
    code point in their lowercase mapping, and no mapping is empty. *)
Definition lower_table_ok (unicode_lower : str -> codepoint -> str -> str) : Prop :=
  forall before c after,
    is_ascii c = false -> c <> KELVIN_SIGN -> c <> CAPITAL_I_WITH_DOT ->
    unicode_lower before c after <> [] /\
    Forall (fun x => is_ascii x = false) (unicode_lower before c after).

(** A fragment of the table, enough to run the definitions: the capital
    letters of Latin-1 (U+00C0 to U+00DE, the multiplication sign apart)
    move up by 32; every other code point is kept. *)
Definition latin1_lower (before : str) (c : codepoint) (after : str) : str :=
  if (0xC0 <=? c) && (c <=? 0xDE) && negb (c =? 0xD7) then [c + 32] else [c].

End Py.

Import Py.

(** ** The status lines *)

Definition CROSS_MARK : str := [0x274C].
Definition WARNING_SIGN : str := [0x26A0; 0xFE0F].
Definition CHECK_MARK : str := [0x2705].
Definition ROTATING_LIGHT : str := [0x1F6A8].

(** ** class KYCRiskPlugin

    The four methods, in the order of the source.  None reads or writes
    an attribute of [self], so the object is left out; the decorator only
    registers the method under its name.  The first and the third call
    [lower], so they take the Unicode table as a parameter. *)

Section KYCRiskPlugin.

Variable unicode_lower : str -> codepoint -> str -> str.

Let lower := Py.lower unicode_lower.

Definition validate_id_document (document_text : str) : str :=
  if str_in (lit "forged") (lower document_text)
  then CROSS_MARK ++ lit " Document invalid: suspected forgery."
  else CHECK_MARK ++ lit " Document valid.".

Definition screen_against_sanctions (full_name : str) : str :=
  let watchlist := [lit "John Doe"; lit "Ali Khan"] in
  if list_in full_name watchlist
  then CROSS_MARK ++ lit " " ++ full_name ++ lit " flagged on sanctions list."
  else CHECK_MARK ++ lit " " ++ full_name ++ lit " is clear.".

Definition assess_behavioral_risk (behavior_data : str) : str :=
  if str_in (lit "bot-like") (lower behavior_data)
     || str_in (lit "unusual") (lower behavior_data)
  then WARNING_SIGN ++ lit " Behavioral risk detected."
  else CHECK_MARK ++ lit " Behavior appears normal.".

Definition combine_risk_signals (id_status sanctions_status behavior_status : str) : str :=
  let red_flags := [id_status; sanctions_status; behavior_status] in
  if existsb (fun flag => str_in CROSS_MARK flag || str_in WARNING_SIGN flag) red_flags
  then ROTATING_LIGHT ++ lit " High Risk: Escalate to manual review."
  else CHECK_MARK ++ lit " Low Risk: Auto-approve onboarding.".

End KYCRiskPlugin.

(** ** Reading the status lines

    The specification speaks of a risk status: a severity and a message.
    The code encodes both in one line of text. *)

Inductive Severity := OK | WARNING | REJECT.

Record RiskStatus := { severity : Severity; message : str }.

Definition rank (v : Severity) : N :=
  match v with OK => 0 | WARNING => 1 | REJECT => 2 end.


Definition sev_max (v w : Severity) : Severity :=
  if rank v <=? rank w then w else v.

(** The total order OK < WARNING < REJECT has no level above REJECT and no
    level strictly between two neighbours; [escalate] sends every level
    above OK to the top. *)
Definition escalate (v : Severity) : Severity :=
  match v with OK => OK | WARNING | REJECT => REJECT end.

(** The emoji a line starts with and the level it announces.  The
    rotating light only heads the combined decision. *)
Definition markers : list (str * Severity) :=
  [(CROSS_MARK, REJECT); (ROTATING_LIGHT, REJECT);
   (WARNING_SIGN, WARNING); (CHECK_MARK, OK)].

Fixpoint read_with (ms : list (str * Severity)) (status : str) : option RiskStatus :=
  match ms with
  | [] => None
  | (m, v) :: ms' =>
      if starts_with (m ++ lit " ") status
      then Some {| severity := v; message := skipn (List.length m + 1) status |}
      else read_with ms' status
  end.

(** A status line read back as marker, space, message. *)
Definition read_status (status : str) : option RiskStatus :=
  read_with markers status.

Definition level_of (status : str) : option Severity :=
  option_map severity (read_status status).


(** The severity [combine_risk_signals] reads in one of its inputs: it
    looks for the cross mark and for the warning sign anywhere in the
    line. *)
Definition signal_severity (flag : str) : Severity :=
  if str_in CROSS_MARK flag then REJECT
  else if str_in WARNING_SIGN flag then WARNING
  else OK.

(** [occurs t s]: [t] is a substring of [s]. *)
Definition occurs (t s : str) : Prop := exists pre post, s = pre ++ t ++ post.

(** [says out marker v msg]: the line [out] is the marker, a space and
    the message, and reads back as the level [v] with that message. *)
Definition says (out marker : str) (v : Severity) (msg : str) : Prop :=
  out = marker ++ lit " " ++ msg /\
  read_status out = Some {| severity := v; message := msg |}.

(** An input that reads WARNING or REJECT. *)
Definition alarming (flag : str) : Prop :=
  signal_severity flag = WARNING \/ signal_severity flag = REJECT.

(** An input in which the cross mark or the warning sign occurs. *)
Definition marked (flag : str) : Prop :=
  occurs CROSS_MARK flag \/ occurs WARNING_SIGN flag.

(** The line the three evaluators return for a status: a check mark for
    OK, a warning sign for WARNING, a cross mark for REJECT, then a space
    and the message. *)
Definition marker_of (v : Severity) : str :=
  match v with
  | OK => CHECK_MARK
  | WARNING => WARNING_SIGN
  | REJECT => CROSS_MARK
  end.

Definition render (r : RiskStatus) : str :=
  marker_of (severity r) ++ lit " " ++ message r.

(** [risk_signal x]: the line [x] is a status as the evaluators write it,
    and when the status is OK neither the cross mark nor the warning sign
    occurs in its message. *)
Definition risk_signal (x : str) : Prop :=
  exists r, x = render r /\ (severity r = OK -> ~ marked (message r)).



(** ** Occurrences up to case

    [case_form c k]: the code
    point [c] is the lower-case or caseless code point [k] in some case,
    that is [k] itself, the ASCII capital of [k], or the Kelvin sign for
    the letter k.  A case variant of a keyword replaces each code point by
    one of its case forms. *)

Definition case_form (c k : codepoint) : bool :=
  (c =? k) || (is_ascii_upper c && (c + 32 =? k)) || ((c =? KELVIN_SIGN) && (k =? 107)).

Definition case_variant (t kw : str) : Prop :=
  Forall2 (fun c k => case_form c k = true) t kw.

Definition occurs_in_any_case (kw s : str) : Prop :=
  exists t, case_variant t kw /\ occurs t s.

(** The same two notions as tests. *)
Fixpoint starts_with_any_case (kw s : str) : bool :=
  match kw, s with
  | [], _ => true
  | _ :: _, [] => false
  | k :: kw', c :: s' => case_form c k && starts_with_any_case kw' s'
  end.

Fixpoint str_in_any_case (kw s : str) : bool :=
  starts_with_any_case kw s ||
  match s with
  | [] => false
  | _ :: s' => str_in_any_case kw s'
  end.

(** The keywords of the plugin are ASCII, have no capital letter and do
    not end with the letter i. *)
Definition keyword_ok (kw : str) : Prop :=
  Forall (fun k => is_ascii k = true /\ is_ascii_upper k = false) kw /\
  last kw 0 <> 105.

(** Two texts that differ only in the case of their ASCII letters. *)
Definition same_up_to_ascii_case (s s' : str) : Prop :=
  Forall2 (fun c c' => ascii_lower c = ascii_lower c') s s'.

(** A name on the watchlist of [screen_against_sanctions]. *)
Definition on_watchlist (full_name : str) : Prop :=
  full_name = lit "John Doe" \/ full_name = lit "Ali Khan".

(** ** Lemmas on the string operations *)

Ltac bool_prop :=
  repeat match goal with
  | H : _ && _ = true |- _ => apply andb_true_iff in H; destruct H
  | H : _ || _ = false |- _ => apply orb_false_iff in H; destruct H
  | H : (_ =? _) = true |- _ => apply N.eqb_eq in H
  | H : (_ =? _) = false |- _ => apply N.eqb_neq in H
  | H : (_ <? _) = true |- _ => apply N.ltb_lt in H
  | H : (_ <? _) = false |- _ => apply N.ltb_ge in H
  | H : (_ <=? _) = true |- _ => apply N.leb_le in H
  | H : (_ <=? _) = false |- _ => apply N.leb_gt in H
  end.

Lemma str_eqb_eq (a b : str) : str_eqb a b = true <-> a = b.
Proof.
  revert b; induction a as [|x a IH]; intros [|y b]; simpl; split;
    try congruence; try reflexivity.
  - intros H; bool_prop. subst; f_equal; now apply IH.
  - intros H; injection H as -> ->. rewrite N.eqb_refl. now apply IH.
Qed.

Lemma starts_with_spec (p s : str) :
  starts_with p s = true <-> exists post, s = p ++ post.
Proof.
  revert s; induction p as [|a p IH]; intros s; simpl.
  - split; [intros _; now exists s | reflexivity].
  - destruct s as [|b s].
    + split; [discriminate | intros [post H]; discriminate].
    + split.
      * intros H; bool_prop. apply IH in H0 as [post ->]. subst. now exists post.
      * intros [post H]. injection H as -> ->. rewrite N.eqb_refl.
        apply IH. now exists post.
Qed.

Lemma str_in_spec (sub s : str) : str_in sub s = true <-> occurs sub s.
Proof.
  induction s as [|x s IH]; simpl.
  - rewrite orb_false_r, starts_with_spec. split.
    + intros [post H]. now exists [], post.
    + intros (pre & post & H). destruct pre; [now exists post|discriminate].
  - rewrite orb_true_iff, starts_with_spec, IH. split.
    + intros [[post H] | (pre & post & H)].
      * now exists [], post.
      * exists (x :: pre), post. simpl. now f_equal.
    + intros (pre & post & H). destruct pre as [|y pre].
      * left. now exists post.
      * right. injection H as _ ->. now exists pre, post.
Qed.

Lemma starts_with_any_case_spec (kw s : str) :
  starts_with_any_case kw s = true <->
  exists t post, case_variant t kw /\ s = t ++ post.
Proof.
  revert s; induction kw as [|k kw IH]; intros s; simpl.
  - split; [intros _; exists [], s; split; [constructor|reflexivity] | reflexivity].
  - destruct s as [|c s].
    + split; [discriminate|].
      intros (t & post & Hv & H). inversion Hv; subst. discriminate.
    + rewrite andb_true_iff, IH. split.
      * intros (Hc & t & post & Hv & ->).
        exists (c :: t), post. split; [now constructor|reflexivity].
      * intros (t & post & Hv & H). inversion Hv; subst.
        injection H as -> ->. split; [assumption|]. now exists l, post.
Qed.

Lemma str_in_any_case_spec (kw s : str) :
  str_in_any_case kw s = true <-> occurs_in_any_case kw s.
Proof.
  unfold occurs_in_any_case, occurs.
  induction s as [|x s IH]; simpl.
  - rewrite orb_false_r, starts_with_any_case_spec. split.
    + intros (t & post & Hv & H). exists t. split; [assumption|now exists [], post].
    + intros (t & Hv & pre & post & H). exists t, post. split; [assumption|].
      destruct pre; [assumption|discriminate].
  - rewrite orb_true_iff, starts_with_any_case_spec, IH. split.
    + intros [(t & post & Hv & H) | (t & Hv & pre & post & H)].
      * exists t. split; [assumption|now exists [], post].
      * exists t. split; [assumption|]. exists (x :: pre), post. simpl. now f_equal.
    + intros (t & Hv & pre & post & H). destruct pre as [|y pre].
      * left. now exists t, post.
      * right. injection H as _ ->. exists t. split; [assumption|now exists pre, post].
Qed.

Lemma keyword_ok_cons (k : codepoint) (kw : str) :
  keyword_ok (k :: kw) ->
  k < 128 /\ ~ (65 <= k <= 90) /\ (kw = [] -> k <> 105) /\ keyword_ok kw.
Proof.
  intros [Hall Hlast]. inversion Hall as [|? ? [Ha Hu] Hall']; subst.
  unfold is_ascii in Ha. unfold is_ascii_upper in Hu.
  apply N.ltb_lt in Ha. apply andb_false_iff in Hu.
  repeat split.
  - assumption.
  - intros [H1 H2]. destruct Hu as [Hu|Hu]; bool_prop; lia.
  - intros ->. exact Hlast.
  - assumption.
  - destruct kw as [|k' kw']; [simpl; lia | exact Hlast].
Qed.

Lemma case_form_ascii (c k : codepoint) :
  c < 128 -> k < 128 -> ~ (65 <= k <= 90) ->
  (k =? ascii_lower c) = case_form c k.
Proof.
  intros Hc Hk Hu. unfold case_form, ascii_lower, is_ascii_upper, KELVIN_SIGN.
  destruct (N.leb_spec 65 c), (N.leb_spec c 90); simpl;
    destruct (N.eqb_spec c k), (N.eqb_spec c 8490); simpl;
    try destruct (N.eqb_spec (c + 32) k); simpl;
    try (apply N.eqb_eq; lia); try (apply N.eqb_neq; lia); try lia.
Qed.

Lemma case_form_non_ascii (c k : codepoint) :
  128 <= c -> c <> KELVIN_SIGN -> k < 128 -> case_form c k = false.
Proof.
  intros Hc Hn Hk. unfold case_form, is_ascii_upper, KELVIN_SIGN in *.
  destruct (N.eqb_spec c k), (N.leb_spec 65 c), (N.leb_spec c 90),
    (N.eqb_spec c 8490); simpl; try reflexivity; lia.
Qed.

Lemma case_form_kelvin (k : codepoint) :
  k < 128 -> case_form KELVIN_SIGN k = (k =? 107).
Proof.
  intros Hk. unfold case_form, KELVIN_SIGN.
  destruct (N.eqb_spec 8490 k); [lia|]. rewrite N.eqb_refl.
  change (is_ascii_upper 8490) with false. reflexivity.
Qed.

Lemma starts_with_head_neq (k x : codepoint) (kw l : str) :
  k <> x -> starts_with (k :: kw) (x :: l) = false.
Proof. intros H. simpl. apply N.eqb_neq in H. now rewrite H. Qed.

Lemma str_in_skip_non_ascii (k : codepoint) (kw ps l : str) :
  k < 128 -> Forall (fun x => is_ascii x = false) ps ->
  str_in (k :: kw) (ps ++ l) = str_in (k :: kw) l.
Proof.
  intros Hk Hps. induction Hps as [|x ps Hx _ IH]; [reflexivity|].
  change (str_in (k :: kw) ((x :: ps) ++ l))
    with (starts_with (k :: kw) (x :: ps ++ l) || str_in (k :: kw) (ps ++ l)).
  rewrite starts_with_head_neq, IH; [reflexivity|].
  unfold is_ascii in Hx. bool_prop. lia.
Qed.

(** ** Lowercasing and the keyword tests *)

Section LowerFacts.

Variable unicode_lower : str -> codepoint -> str -> str.
Hypothesis table_ok : lower_table_ok unicode_lower.

(** Every code point lowers to a first code point followed by
    non-ASCII ones. *)
Lemma lower_cp_shape (before : str) (c : codepoint) (after : str) :
  exists p ps, lower_cp unicode_lower before c after = p :: ps /\
               Forall (fun x => is_ascii x = false) ps.
Proof.
  unfold lower_cp. destruct (is_ascii c) eqn:Ha.
  { eexists _, []. split; [reflexivity|constructor]. }
  destruct (N.eqb_spec c KELVIN_SIGN) as [->|Hk].
  { eexists _, []. split; [reflexivity|constructor]. }
  destruct (N.eqb_spec c CAPITAL_I_WITH_DOT) as [->|Hi].
  { eexists _, [_]. split; [reflexivity|]. repeat constructor. }
  destruct (table_ok before c after Ha Hk Hi) as [Hne Hall].
  destruct (unicode_lower before c after) as [|p ps]; [congruence|].
  exists p, ps. split; [reflexivity|]. now inversion Hall.
Qed.

(** At a given offset, the keyword matches the lowered text exactly
    when a case variant of it stands there in the text. *)
Lemma starts_with_lower (kw : str) :
  keyword_ok kw ->
  forall before s,
    starts_with kw (lower_from unicode_lower before s) = starts_with_any_case kw s.
Proof.
  induction kw as [|k kw IH]; intros Hok before s; [reflexivity|].
  apply keyword_ok_cons in Hok as (Hk & Hu & Hi & Hok).
  destruct s as [|c after]; [reflexivity|].
  cbn [lower_from starts_with_any_case]. unfold lower_cp.
  destruct (is_ascii c) eqn:Ha.
  { unfold is_ascii in Ha. bool_prop. cbn [app starts_with].
    rewrite IH by assumption. now rewrite case_form_ascii. }
  unfold is_ascii in Ha. bool_prop.
  destruct (N.eqb_spec c KELVIN_SIGN) as [->|Hn].
  { cbn [app starts_with]. rewrite IH by assumption.
    now rewrite case_form_kelvin. }
  rewrite case_form_non_ascii by assumption. cbn [andb].
  destruct (N.eqb_spec c CAPITAL_I_WITH_DOT) as [->|Hd].
  { cbn [app starts_with]. destruct (N.eqb_spec k 105) as [->|]; [|reflexivity].
    destruct kw as [|k' kw]; [now elim Hi|].
    apply keyword_ok_cons in Hok as (Hk' & _).
    cbn [andb]. apply starts_with_head_neq. unfold COMBINING_DOT_ABOVE. lia. }
  assert (Ha' : is_ascii c = false) by (apply N.ltb_ge; assumption).
  destruct (table_ok before c after Ha' Hn Hd) as [Hne Hall].
  destruct (unicode_lower before c after) as [|p ps]; [congruence|].
  inversion Hall as [|? ? Hp _]; subst. unfold is_ascii in Hp. bool_prop.
  apply starts_with_head_neq. lia.
Qed.

(** [kw in text.lower()] finds the keyword in any case. *)
Lemma str_in_lower_from (kw : str) :
  keyword_ok kw -> kw <> [] ->
  forall s before,
    str_in kw (lower_from unicode_lower before s) = str_in_any_case kw s.
Proof.
  intros Hok Hne. induction s as [|c after IH]; intros before.
  - simpl. destruct kw; [congruence|reflexivity].
  - cbn [str_in_any_case]. rewrite <- (IH (before ++ [c])).
    rewrite <- (starts_with_lower kw Hok before (c :: after)).
    cbn [lower_from].
    destruct (lower_cp_shape before c after) as (p & ps & -> & Hps).
    destruct kw as [|k kw]; [congruence|].
    apply keyword_ok_cons in Hok as (Hk & _).
    change (str_in (k :: kw) ((p :: ps) ++ ?l))
      with (starts_with (k :: kw) ((p :: ps) ++ l) || str_in (k :: kw) (ps ++ l)).
    now rewrite str_in_skip_non_ascii.
Qed.

Lemma str_in_lower (kw s : str) :
  keyword_ok kw -> kw <> [] ->
  str_in kw (lower unicode_lower s) = true <-> occurs_in_any_case kw s.
Proof.
  intros Hok Hne. unfold lower. rewrite str_in_lower_from by assumption.
  apply str_in_any_case_spec.
Qed.

End LowerFacts.

(** ** combine_risk_signals *)

Lemma alarming_iff (flag : str) :
  alarming flag <-> str_in CROSS_MARK flag || str_in WARNING_SIGN flag = true.
Proof.
  unfold alarming, signal_severity.
  destruct (str_in CROSS_MARK flag), (str_in WARNING_SIGN flag); simpl;
    split; intros H; try reflexivity; try discriminate;
    try (destruct H; discriminate); auto.
Qed.

Lemma not_alarming_iff (flag : str) :
  ~ alarming flag <-> signal_severity flag = OK.
Proof.
  unfold alarming. destruct (signal_severity flag); split; intros H;
    try reflexivity; try discriminate; try (exfalso; apply H; auto; fail).
  intros [H'|H']; discriminate.
Qed.

Lemma says_high (out : str) :
  out = ROTATING_LIGHT ++ lit " High Risk: Escalate to manual review." ->
  says out ROTATING_LIGHT REJECT (lit "High Risk: Escalate to manual review.").
Proof. intros ->. split; reflexivity. Qed.

Lemma says_low (out : str) :
  out = CHECK_MARK ++ lit " Low Risk: Auto-approve onboarding." ->
  says out CHECK_MARK OK (lit "Low Risk: Auto-approve onboarding.").
Proof. intros ->. split; reflexivity. Qed.

(** The decision as a function of what is read in the three inputs. *)
Lemma combine_risk_signals_cases (a b c : str) :
  (alarming a \/ alarming b \/ alarming c) /\
    combine_risk_signals a b c =
      ROTATING_LIGHT ++ lit " High Risk: Escalate to manual review."
  \/
  (signal_severity a = OK /\ signal_severity b = OK /\ signal_severity c = OK) /\
    combine_risk_signals a b c =
      CHECK_MARK ++ lit " Low Risk: Auto-approve onboarding.".
Proof.
  unfold combine_risk_signals. cbn [existsb].
  destruct (str_in CROSS_MARK a || str_in WARNING_SIGN a) eqn:Ha.
  { left. split; [|reflexivity]. left. now apply alarming_iff. }
  destruct (str_in CROSS_MARK b || str_in WARNING_SIGN b) eqn:Hb.
  { left. split; [|reflexivity]. right; left. now apply alarming_iff. }
  destruct (str_in CROSS_MARK c || str_in WARNING_SIGN c) eqn:Hc.
  { left. split; [|reflexivity]. right; right. now apply alarming_iff. }
  right. split; [|reflexivity].
  repeat split; apply not_alarming_iff; rewrite alarming_iff; congruence.
Qed.

Lemma existsb_Permutation {A : Type} (f : A -> bool) (l l' : list A) :
  Permutation l l' -> existsb f l = existsb f l'.
Proof.
  induction 1 as [| x l l' _ IH | x y l | l l' l'' _ IH1 _ IH2]; simpl.
  - reflexivity.
  - now rewrite IH.
  - now destruct (f x), (f y).
  - now rewrite IH1.
Qed.

(** C10. The result is the same for every order of the three inputs. *)
Theorem combine_risk_signals_symmetric (a b c x y z : str) :
  Permutation [a; b; c] [x; y; z] ->
  combine_risk_signals a b c = combine_risk_signals x y z.
Proof.
  intros H. unfold combine_risk_signals.
  now rewrite (existsb_Permutation _ _ _ H).
Qed.

Lemma alarming_marked (flag : str) : alarming flag <-> marked flag.
Proof.
  unfold marked. now rewrite alarming_iff, orb_true_iff, !str_in_spec.
Qed.

(** C2, as stated, fails: two inputs at level OK and one at level
    WARNING have maximum WARNING, and the result is at level REJECT. *)
Lemma combine_risk_signals_not_max :
  let a := CHECK_MARK ++ lit " Document valid." in
  let b := CHECK_MARK ++ lit " Jane Smith is clear." in
  let c := WARNING_SIGN ++ lit " Behavioral risk detected." in
  (level_of a = Some OK /\ level_of b = Some OK /\ level_of c = Some WARNING) /\
  sev_max OK (sev_max OK WARNING) = WARNING /\
  sev_max (signal_severity a) (sev_max (signal_severity b) (signal_severity c))
    = WARNING /\
  level_of (combine_risk_signals a b c) = Some REJECT /\
  level_of (combine_risk_signals a b c) <>
    Some (sev_max (signal_severity a)
                  (sev_max (signal_severity b) (signal_severity c))).
Proof. repeat split; [vm_compute; discriminate]. Qed.

(** C9. The decision depends only on whether the cross mark or the
    warning sign occurs somewhere in one of the three inputs; so a name
    off the watchlist that contains the cross mark is reported clear at
    level OK, and that report combined with two OK lines gives the
    high-risk line. *)
Theorem combine_risk_signals_reads_markers_anywhere :
  (forall a b c : str,
     (marked a \/ marked b \/ marked c ->
      combine_risk_signals a b c =
        ROTATING_LIGHT ++ lit " High Risk: Escalate to manual review.") /\
     (~ (marked a \/ marked b \/ marked c) ->
      combine_risk_signals a b c =
        CHECK_MARK ++ lit " Low Risk: Auto-approve onboarding.")) /\
  exists full_name : str,
    list_in full_name [lit "John Doe"; lit "Ali Khan"] = false /\
    occurs CROSS_MARK full_name /\
    says (screen_against_sanctions full_name) CHECK_MARK OK
         (full_name ++ lit " is clear.") /\
    says (combine_risk_signals (CHECK_MARK ++ lit " Document valid.")
                               (screen_against_sanctions full_name)
                               (CHECK_MARK ++ lit " Behavior appears normal."))
         ROTATING_LIGHT REJECT (lit "High Risk: Escalate to manual review.").
Proof.
  split.
  - intros a b c. rewrite <- !alarming_marked.
    destruct (combine_risk_signals_cases a b c) as [[H E] | [(Ha & Hb & Hc) E]].
    + split; [intros _; exact E | intros N; now elim N].
    + split; [|intros _; exact E].
      intros [H|[H|H]]; exfalso; revert H; apply not_alarming_iff; assumption.
  - exists CROSS_MARK. split; [reflexivity|]. split; [now exists [], []|].
    split; split; reflexivity.
Qed.

(** ** screen_against_sanctions *)

(** C4. A name equal to "John Doe" or "Ali Khan" is rejected with
    "{full_name} flagged on sanctions list."; every other name, a case
    variant such as "john doe" included, is OK with "{full_name} is
    clear.". *)
Theorem screen_against_sanctions_spec (full_name : str) :
  (full_name = lit "John Doe" \/ full_name = lit "Ali Khan" ->
   says (screen_against_sanctions full_name) CROSS_MARK REJECT
        (full_name ++ lit " flagged on sanctions list.")) /\
  (full_name <> lit "John Doe" -> full_name <> lit "Ali Khan" ->
   says (screen_against_sanctions full_name) CHECK_MARK OK
        (full_name ++ lit " is clear.")) /\
  says (screen_against_sanctions (lit "john doe")) CHECK_MARK OK
       (lit "john doe is clear.").
Proof.
  split; [|split].
  - intros [-> | ->]; split; reflexivity.
  - intros H1 H2. unfold screen_against_sanctions, list_in. cbn [existsb].
    destruct (str_eqb full_name (lit "John Doe")) eqn:E1;
      [apply str_eqb_eq in E1; contradiction|].
    destruct (str_eqb full_name (lit "Ali Khan")) eqn:E2;
      [apply str_eqb_eq in E2; contradiction|].
    split; reflexivity.
  - split; reflexivity.
Qed.

(** ** validate_id_document and assess_behavioral_risk *)

Lemma keyword_ok_forged : keyword_ok (lit "forged").
Proof. split; [repeat constructor | intros H; discriminate H]. Qed.

Lemma keyword_ok_bot_like : keyword_ok (lit "bot-like").
Proof. split; [repeat constructor | intros H; discriminate H]. Qed.

Lemma keyword_ok_unusual : keyword_ok (lit "unusual").
Proof. split; [repeat constructor | intros H; discriminate H]. Qed.

Lemma latin1_lower_ok : lower_table_ok latin1_lower.
Proof.
  intros before c after Ha _ _. unfold latin1_lower, is_ascii in *. bool_prop.
  destruct ((192 <=? c) && (c <=? 222) && negb (c =? 215));
    (split; [discriminate|]); repeat constructor; apply N.ltb_ge; lia.
Qed.

Section Keywords.

Variable unicode_lower : str -> codepoint -> str -> str.
Hypothesis table_ok : lower_table_ok unicode_lower.

(** C3. A text in which "forged" occurs in some case is rejected with
    "Document invalid: suspected forgery."; every other text, the empty
    one included, is OK with "Document valid.". *)
Theorem validate_id_document_spec (document_text : str) :
  (occurs_in_any_case (lit "forged") document_text ->
   says (validate_id_document unicode_lower document_text) CROSS_MARK REJECT
        (lit "Document invalid: suspected forgery.")) /\
  (~ occurs_in_any_case (lit "forged") document_text ->
   says (validate_id_document unicode_lower document_text) CHECK_MARK OK
        (lit "Document valid.")) /\
  says (validate_id_document unicode_lower []) CHECK_MARK OK
       (lit "Document valid.").
Proof.
  pose proof (str_in_lower unicode_lower table_ok (lit "forged") document_text
                keyword_ok_forged ltac:(discriminate)) as H.
  unfold validate_id_document.
  destruct (str_in (lit "forged") (lower unicode_lower document_text)).
  - split; [intros _; split; reflexivity|].
    split; [|split; reflexivity].
    intros N. exfalso. apply N, H. reflexivity.
  - split; [|split; [intros _|]; split; reflexivity].
    intros Hin. apply H in Hin. discriminate.
Qed.

(** C5. A text in which "bot-like" or "unusual" occurs in some case
    gets a WARNING with "Behavioral risk detected."; every other text is
    OK with "Behavior appears normal.". *)
Theorem assess_behavioral_risk_spec (behavior_data : str) :
  (occurs_in_any_case (lit "bot-like") behavior_data \/
   occurs_in_any_case (lit "unusual") behavior_data ->
   says (assess_behavioral_risk unicode_lower behavior_data) WARNING_SIGN WARNING
        (lit "Behavioral risk detected.")) /\
  (~ (occurs_in_any_case (lit "bot-like") behavior_data \/
      occurs_in_any_case (lit "unusual") behavior_data) ->
   says (assess_behavioral_risk unicode_lower behavior_data) CHECK_MARK OK
        (lit "Behavior appears normal.")).
Proof.
  pose proof (str_in_lower unicode_lower table_ok (lit "bot-like") behavior_data
                keyword_ok_bot_like ltac:(discriminate)) as Hb.
  pose proof (str_in_lower unicode_lower table_ok (lit "unusual") behavior_data
                keyword_ok_unusual ltac:(discriminate)) as Hu.
  unfold assess_behavioral_risk.
  destruct (str_in (lit "bot-like") (lower unicode_lower behavior_data)
            || str_in (lit "unusual") (lower unicode_lower behavior_data)) eqn:E.
  - split; [intros _; split; reflexivity|].
    intros N. exfalso. apply N. apply orb_true_iff in E as [E|E].
    + left. now apply Hb.
    + right. now apply Hu.
  - split; [|intros _; split; reflexivity].
    apply orb_false_iff in E as [E1 E2].
    intros [Hin|Hin]; [apply Hb in Hin | apply Hu in Hin]; congruence.
Qed.

End Keywords.

(** ** The four operations together *)

Section Scenarios.

Variable unicode_lower : str -> codepoint -> str -> str.

(** C7. The two scenarios of the demonstration loop: a forged document,
    a listed name and bot-like behaviour give REJECT, REJECT and WARNING
    and combine to the high-risk line; a valid passport, an unlisted name
    and normal behaviour give three OK lines and combine to the low-risk
    line. *)
Theorem end_to_end_scenarios :
  let doc := validate_id_document unicode_lower (lit "Forged national ID") in
  let sanction := screen_against_sanctions (lit "John Doe") in
  let behavior :=
    assess_behavioral_risk unicode_lower (lit "Bot-like input pattern detected") in
  let doc' := validate_id_document unicode_lower (lit "Valid passport") in
  let sanction' := screen_against_sanctions (lit "Jane Smith") in
  let behavior' := assess_behavioral_risk unicode_lower (lit "Normal typing speed") in
  (says doc CROSS_MARK REJECT (lit "Document invalid: suspected forgery.") /\
   says sanction CROSS_MARK REJECT (lit "John Doe flagged on sanctions list.") /\
   says behavior WARNING_SIGN WARNING (lit "Behavioral risk detected.") /\
   says (combine_risk_signals doc sanction behavior) ROTATING_LIGHT REJECT
        (lit "High Risk: Escalate to manual review.")) /\
  (says doc' CHECK_MARK OK (lit "Document valid.") /\
   says sanction' CHECK_MARK OK (lit "Jane Smith is clear.") /\
   says behavior' CHECK_MARK OK (lit "Behavior appears normal.") /\
   says (combine_risk_signals doc' sanction' behavior') CHECK_MARK OK
        (lit "Low Risk: Auto-approve onboarding.")).
Proof. repeat split; vm_compute; reflexivity. Qed.

End Scenarios.

(** ** The theorems at concrete inputs *)

Example lower_ascii :
  lower latin1_lower (lit "Forged national ID") = lit "forged national id".
Proof. reflexivity. Qed.

(** The Kelvin sign lowers to the letter k, so it completes "bot-like". *)
Example assess_behavioral_risk_kelvin :
  assess_behavioral_risk latin1_lower (lit "bot-li" ++ [KELVIN_SIGN] ++ lit "e") =
  WARNING_SIGN ++ lit " Behavioral risk detected.".
Proof. reflexivity. Qed.

(** The dotted capital I lowers to two code points, so it does not. *)
Example assess_behavioral_risk_dotted_I :
  assess_behavioral_risk latin1_lower (lit "bot-l" ++ [CAPITAL_I_WITH_DOT] ++ lit "ke") =
  CHECK_MARK ++ lit " Behavior appears normal.".
Proof. reflexivity. Qed.

(** A rotating light in an input is not a red flag. *)
Example combine_risk_signals_rotating_light :
  combine_risk_signals (ROTATING_LIGHT ++ lit " High Risk: Escalate to manual review.")
                       (CHECK_MARK ++ lit " Jane Smith is clear.")
                       (CHECK_MARK ++ lit " Behavior appears normal.") =
  CHECK_MARK ++ lit " Low Risk: Auto-approve onboarding.".
Proof. reflexivity. Qed.

Lemma combine_risk_signals_symmetric_witness :
  combine_risk_signals (CROSS_MARK ++ lit " Document invalid: suspected forgery.")
                       (CHECK_MARK ++ lit " Jane Smith is clear.")
                       (WARNING_SIGN ++ lit " Behavioral risk detected.") =
  combine_risk_signals (WARNING_SIGN ++ lit " Behavioral risk detected.")
                       (CROSS_MARK ++ lit " Document invalid: suspected forgery.")
                       (CHECK_MARK ++ lit " Jane Smith is clear.").
Proof.
  apply combine_risk_signals_symmetric.
  apply Permutation_sym. apply (Permutation_cons_append [_; _]).
Defined.

Lemma screen_against_sanctions_spec_witness :
  says (screen_against_sanctions (lit "Ali Khan")) CROSS_MARK REJECT
       (lit "Ali Khan" ++ lit " flagged on sanctions list.") /\
  says (screen_against_sanctions (lit "ali khan")) CHECK_MARK OK
       (lit "ali khan" ++ lit " is clear.").
Proof.
  split.
  - apply (proj1 (screen_against_sanctions_spec (lit "Ali Khan"))).
    right. reflexivity.
  - apply (proj1 (proj2 (screen_against_sanctions_spec (lit "ali khan"))));
      intros H; discriminate H.
Defined.

Lemma validate_id_document_spec_witness :
  says (validate_id_document latin1_lower (lit "a FoRgEd visa")) CROSS_MARK REJECT
       (lit "Document invalid: suspected forgery.") /\
  says (validate_id_document latin1_lower (lit "Valid passport")) CHECK_MARK OK
       (lit "Document valid.").
Proof.
  split.
  - apply (proj1 (validate_id_document_spec latin1_lower latin1_lower_ok _)).
    apply str_in_any_case_spec. reflexivity.
  - apply (proj1 (proj2 (validate_id_document_spec latin1_lower latin1_lower_ok _))).
    intros H. apply str_in_any_case_spec in H. discriminate H.
Defined.

Lemma assess_behavioral_risk_spec_witness :
  says (assess_behavioral_risk latin1_lower (lit "UNUSUAL login hours"))
       WARNING_SIGN WARNING (lit "Behavioral risk detected.") /\
  says (assess_behavioral_risk latin1_lower (lit "Normal typing speed"))
       CHECK_MARK OK (lit "Behavior appears normal.").
Proof.
  split.
  - apply (proj1 (assess_behavioral_risk_spec latin1_lower latin1_lower_ok _)).
    right. apply str_in_any_case_spec. reflexivity.
  - apply (proj2 (assess_behavioral_risk_spec latin1_lower latin1_lower_ok _)).
    intros [H|H]; apply str_in_any_case_spec in H; discriminate H.
Defined.

Lemma combine_risk_signals_reads_markers_anywhere_witness :
  combine_risk_signals (CHECK_MARK ++ lit " Document valid.")
                       (screen_against_sanctions CROSS_MARK)
                       (CHECK_MARK ++ lit " Behavior appears normal.") =
  ROTATING_LIGHT ++ lit " High Risk: Escalate to manual review.".
Proof.
  apply (proj1 (proj1 combine_risk_signals_reads_markers_anywhere _ _ _)).
  right. left. left. exists (CHECK_MARK ++ lit " "), (lit " is clear."). reflexivity.
Defined.

(** ** Further properties of the four operations *)

Lemma ascii_lower_small (c : codepoint) : c < 128 -> ascii_lower c < 128.
Proof.
  intros H. unfold ascii_lower, is_ascii_upper.
  destruct (N.leb_spec 65 c), (N.leb_spec c 90); simpl; lia.
Qed.

Lemma ascii_lower_large (c : codepoint) : 128 <= c -> ascii_lower c = c.
Proof.
  intros H. unfold ascii_lower, is_ascii_upper.
  destruct (N.leb_spec 65 c), (N.leb_spec c 90); simpl; lia.
Qed.

Lemma case_form_ascii_case (c c' k : codepoint) :
  ascii_lower c = ascii_lower c' -> k < 128 -> ~ (65 <= k <= 90) ->
  case_form c k = case_form c' k.
Proof.
  intros E Hk Hu.
  destruct (N.lt_ge_cases c 128) as [Hc|Hc], (N.lt_ge_cases c' 128) as [Hc'|Hc'].
  - now rewrite <- !case_form_ascii, E by assumption.
  - pose proof (ascii_lower_small c Hc). rewrite (ascii_lower_large c') in E; lia.
  - pose proof (ascii_lower_small c' Hc'). rewrite (ascii_lower_large c) in E; lia.
  - rewrite !ascii_lower_large in E by assumption. now subst.
Qed.

Lemma starts_with_any_case_congr (kw : str) :
  keyword_ok kw ->
  forall s s', same_up_to_ascii_case s s' ->
               starts_with_any_case kw s = starts_with_any_case kw s'.
Proof.
  induction kw as [|k kw IH]; intros Hok s s' H; [reflexivity|].
  apply keyword_ok_cons in Hok as (Hk & Hu & _ & Hok).
  destruct H as [|c c' s s' E H]; [reflexivity|]. simpl.
  now rewrite (case_form_ascii_case c c' k), (IH Hok s s').
Qed.

Lemma str_in_any_case_congr (kw s s' : str) :
  keyword_ok kw -> same_up_to_ascii_case s s' ->
  str_in_any_case kw s = str_in_any_case kw s'.
Proof.
  intros Hok H. induction H as [|c c' s s' E H IH]; [reflexivity|].
  cbn [str_in_any_case]. rewrite IH. f_equal.
  apply starts_with_any_case_congr; [assumption|now constructor].
Qed.

Lemma starts_with_any_case_length (kw s : str) :
  starts_with_any_case kw s = true -> (List.length kw <= List.length s)%nat.
Proof.
  revert s; induction kw as [|k kw IH]; intros s H; simpl; [lia|].
  destruct s as [|c s]; [discriminate|]. simpl in *.
  apply andb_true_iff in H as [_ H]. apply IH in H. lia.
Qed.

Lemma str_in_any_case_length (kw s : str) :
  str_in_any_case kw s = true -> (List.length kw <= List.length s)%nat.
Proof.
  induction s as [|c s IH]; cbn [str_in_any_case]; intros H;
    apply orb_true_iff in H as [H|H].
  - now apply starts_with_any_case_length.
  - discriminate H.
  - now apply starts_with_any_case_length.
  - apply IH in H. simpl. lia.
Qed.

Lemma occurs_trans (t s s' : str) : occurs t s -> occurs s s' -> occurs t s'.
Proof.
  intros (p1 & q1 & ->) (p2 & q2 & ->).
  exists (p2 ++ p1), (q1 ++ q2). now rewrite <- !app_assoc.
Qed.

Lemma str_in_any_case_occurs (kw s s' : str) :
  occurs s s' -> str_in_any_case kw s = true -> str_in_any_case kw s' = true.
Proof.
  intros Hs H. apply str_in_any_case_spec in H as (t & Hv & Ht).
  apply str_in_any_case_spec. exists t. split; [assumption|].
  now apply occurs_trans with s.
Qed.

(** A marker made of non-ASCII code points is found in a text followed
    by ASCII code points exactly when it is found in the text. *)
Lemma starts_with_app_ascii (m s suffix : str) :
  Forall (fun x => is_ascii x = false) m ->
  Forall (fun x => is_ascii x = true) suffix ->
  starts_with m (s ++ suffix) = starts_with m s.
Proof.
  intros Hm Hs. revert s. induction Hm as [|k m Hk _ IH]; intros s; [reflexivity|].
  destruct s as [|x s]; simpl.
  - destruct Hs as [|a suffix Ha _]; [reflexivity|].
    unfold is_ascii in *. bool_prop.
    destruct (N.eqb_spec k a); [lia|reflexivity].
  - now rewrite IH.
Qed.

Lemma str_in_app_ascii (k : codepoint) (m s suffix : str) :
  Forall (fun x => is_ascii x = false) (k :: m) ->
  Forall (fun x => is_ascii x = true) suffix ->
  str_in (k :: m) (s ++ suffix) = str_in (k :: m) s.
Proof.
  intros Hm Hs. induction s as [|x s IH].
  - cbn [app]. induction Hs as [|a suffix Ha Hs IH]; [reflexivity|].
    cbn [str_in] in *. rewrite IH.
    inversion Hm as [|? ? Hk _]; subst. unfold is_ascii in *. bool_prop.
    cbn [starts_with]. destruct (N.eqb_spec k a); [lia|reflexivity].
  - change (str_in (k :: m) ((x :: s) ++ suffix))
      with (starts_with (k :: m) ((x :: s) ++ suffix) || str_in (k :: m) (s ++ suffix)).
    now rewrite IH, starts_with_app_ascii.
Qed.

Lemma str_in_cons_neq (k x : codepoint) (m l : str) :
  k <> x -> str_in (k :: m) (x :: l) = str_in (k :: m) l.
Proof.
  intros H. cbn [str_in]. now rewrite starts_with_head_neq.
Qed.

Lemma alarming_clear_line (full_name : str) :
  alarming (CHECK_MARK ++ lit " " ++ full_name ++ lit " is clear.") <->
  marked full_name.
Proof.
  rewrite <- alarming_marked, !alarming_iff.
  change (CHECK_MARK ++ lit " " ++ full_name ++ lit " is clear.")
    with (9989 :: 32 :: full_name ++ lit " is clear.").
  unfold CROSS_MARK, WARNING_SIGN.
  rewrite !str_in_cons_neq by (intros H; discriminate H).
  rewrite !str_in_app_ascii; [reflexivity| | | |]; repeat constructor.
Qed.

Lemma on_watchlist_iff (full_name : str) :
  list_in full_name [lit "John Doe"; lit "Ali Khan"] = true <->
  on_watchlist full_name.
Proof.
  unfold list_in, on_watchlist. cbn [existsb].
  rewrite orb_false_r, orb_true_iff, !str_eqb_eq. reflexivity.
Qed.

Lemma screen_against_sanctions_cases (full_name : str) :
  on_watchlist full_name /\
    screen_against_sanctions full_name =
      CROSS_MARK ++ lit " " ++ full_name ++ lit " flagged on sanctions list."
  \/
  ~ on_watchlist full_name /\
    screen_against_sanctions full_name =
      CHECK_MARK ++ lit " " ++ full_name ++ lit " is clear.".
Proof.
  pose proof (on_watchlist_iff full_name) as H.
  unfold screen_against_sanctions.
  destruct (list_in full_name _).
  - left. split; [now apply H | reflexivity].
  - right. split; [|reflexivity]. intros W. apply H in W. discriminate.
Qed.

(** X1. Two different names never get the same line: the name can be
    read back from what [screen_against_sanctions] returns. *)
Theorem screen_against_sanctions_injective (n1 n2 : str) :
  n1 <> n2 -> screen_against_sanctions n1 <> screen_against_sanctions n2.
Proof.
  intros Hne E. apply Hne.
  destruct (screen_against_sanctions_cases n1) as [[_ E1]|[_ E1]],
           (screen_against_sanctions_cases n2) as [[_ E2]|[_ E2]];
    rewrite E1, E2 in E; try discriminate E;
    injection E as E; now apply app_inv_tail in E.
Qed.

(** X2. The line returned for a name is read as a red flag by
    [combine_risk_signals] exactly when the name is on the watchlist or
    the cross mark or the warning sign occurs in the name. *)
Theorem screen_against_sanctions_alarming (full_name : str) :
  alarming (screen_against_sanctions full_name) <->
  on_watchlist full_name \/ marked full_name.
Proof.
  destruct (screen_against_sanctions_cases full_name) as [[W ->]|[W ->]].
  - split; [intros _; now left | intros _]. right. reflexivity.
  - rewrite alarming_clear_line. tauto.
Qed.

(** X4. The result of [combine_risk_signals] is never read as a red flag
    when it is passed back as an input: with two inputs that read OK, a
    decision, high risk or not, combines to the low-risk line. *)
Theorem combine_risk_signals_result_reads_OK (a b c : str) :
  signal_severity (combine_risk_signals a b c) = OK /\
  forall x y, signal_severity x = OK -> signal_severity y = OK ->
    says (combine_risk_signals (combine_risk_signals a b c) x y) CHECK_MARK OK
         (lit "Low Risk: Auto-approve onboarding.").
Proof.
  assert (H : signal_severity (combine_risk_signals a b c) = OK).
  { destruct (combine_risk_signals_cases a b c) as [[_ ->]|[_ ->]]; reflexivity. }
  split; [exact H|]. intros x y Hx Hy.
  destruct (combine_risk_signals_cases (combine_risk_signals a b c) x y)
    as [[[F|[F|F]] _]|[_ E]].
  - exfalso. revert F. now apply not_alarming_iff.
  - exfalso. revert F. now apply not_alarming_iff.
  - exfalso. revert F. now apply not_alarming_iff.
  - now apply says_low.
Qed.

(** X8. Only the exact name is matched: a watchlist name with anything
    before or after it (a title, a middle name, a trailing space) is
    reported clear. *)
Theorem screen_against_sanctions_padded_clear (pre name post : str) :
  on_watchlist name -> pre ++ post <> [] ->
  says (screen_against_sanctions (pre ++ name ++ post)) CHECK_MARK OK
       ((pre ++ name ++ post) ++ lit " is clear.").
Proof.
  intros W Hne.
  assert (L : (List.length (pre ++ name ++ post) > 8)%nat).
  { assert (Hn : List.length name = 8%nat) by (destruct W as [-> | ->]; reflexivity).
    rewrite !length_app, Hn. destruct pre, post; simpl in *; try lia.
    now elim Hne. }
  destruct (screen_against_sanctions_cases (pre ++ name ++ post)) as [[W' _]|[_ ->]].
  - exfalso. destruct W' as [E|E]; rewrite E in L; cbn in L; lia.
  - split; reflexivity.
Qed.

Section KeywordProperties.

Variable unicode_lower : str -> codepoint -> str -> str.
Hypothesis table_ok : lower_table_ok unicode_lower.

Lemma validate_id_document_any_case (document_text : str) :
  validate_id_document unicode_lower document_text =
  if str_in_any_case (lit "forged") document_text
  then CROSS_MARK ++ lit " Document invalid: suspected forgery."
  else CHECK_MARK ++ lit " Document valid.".
Proof.
  unfold validate_id_document, lower.
  now rewrite (str_in_lower_from unicode_lower table_ok (lit "forged")
                 keyword_ok_forged ltac:(discriminate)).
Qed.

Lemma assess_behavioral_risk_any_case (behavior_data : str) :
  assess_behavioral_risk unicode_lower behavior_data =
  if str_in_any_case (lit "bot-like") behavior_data
     || str_in_any_case (lit "unusual") behavior_data
  then WARNING_SIGN ++ lit " Behavioral risk detected."
  else CHECK_MARK ++ lit " Behavior appears normal.".
Proof.
  unfold assess_behavioral_risk, lower.
  now rewrite (str_in_lower_from unicode_lower table_ok (lit "bot-like")
                 keyword_ok_bot_like ltac:(discriminate)),
              (str_in_lower_from unicode_lower table_ok (lit "unusual")
                 keyword_ok_unusual ltac:(discriminate)).
Qed.

Lemma alarming_validate_id_document (document_text : str) :
  alarming (validate_id_document unicode_lower document_text) <->
  occurs_in_any_case (lit "forged") document_text.
Proof.
  rewrite validate_id_document_any_case, <- str_in_any_case_spec, alarming_iff.
  destruct (str_in_any_case (lit "forged") document_text);
    split; intros H; try reflexivity; discriminate H.
Qed.

Lemma alarming_assess_behavioral_risk (behavior_data : str) :
  alarming (assess_behavioral_risk unicode_lower behavior_data) <->
  occurs_in_any_case (lit "bot-like") behavior_data \/
  occurs_in_any_case (lit "unusual") behavior_data.
Proof.
  rewrite assess_behavioral_risk_any_case, <- !str_in_any_case_spec,
    alarming_iff, <- orb_true_iff.
  destruct (str_in_any_case (lit "bot-like") behavior_data
            || str_in_any_case (lit "unusual") behavior_data);
    split; intros H; try reflexivity; discriminate H.
Qed.

(** X3. The evaluation of one customer, as the demonstration loop chains
    the four operations: the decision is the high-risk line exactly when
    the document mentions "forged" in some case, or the name is on the
    watchlist or carries the cross mark or the warning sign, or the
    behaviour mentions "bot-like" or "unusual" in some case; it is the
    low-risk line otherwise. *)
Theorem kyc_evaluation_spec (document_text full_name behavior_data : str) :
  (occurs_in_any_case (lit "forged") document_text \/
   (on_watchlist full_name \/ marked full_name) \/
   (occurs_in_any_case (lit "bot-like") behavior_data \/
    occurs_in_any_case (lit "unusual") behavior_data) ->
   says (combine_risk_signals
           (validate_id_document unicode_lower document_text)
           (screen_against_sanctions full_name)
           (assess_behavioral_risk unicode_lower behavior_data))
        ROTATING_LIGHT REJECT (lit "High Risk: Escalate to manual review.")) /\
  (~ (occurs_in_any_case (lit "forged") document_text \/
      (on_watchlist full_name \/ marked full_name) \/
      (occurs_in_any_case (lit "bot-like") behavior_data \/
       occurs_in_any_case (lit "unusual") behavior_data)) ->
   says (combine_risk_signals
           (validate_id_document unicode_lower document_text)
           (screen_against_sanctions full_name)
           (assess_behavioral_risk unicode_lower behavior_data))
        CHECK_MARK OK (lit "Low Risk: Auto-approve onboarding.")).
Proof.
  rewrite <- alarming_validate_id_document, <- alarming_assess_behavioral_risk.
  assert (S := screen_against_sanctions_cases full_name).
  assert (M := alarming_clear_line full_name).
  destruct (combine_risk_signals_cases
              (validate_id_document unicode_lower document_text)
              (screen_against_sanctions full_name)
              (assess_behavioral_risk unicode_lower behavior_data))
    as [[H E] | [(Ha & Hb & Hc) E]].
  - split; [intros _; now apply says_high|].
    intros N. exfalso. apply N.
    destruct H as [H|[H|H]]; [now left | | now right; right].
    right; left. destruct S as [[W _]|[_ E']]; [now left|].
    right. apply M. now rewrite <- E'.
  - split; [|intros _; now apply says_low].
    apply not_alarming_iff in Ha, Hb, Hc.
    intros [H|[[W|H]|H]]; try contradiction.
    + exfalso. apply Hb.
      destruct S as [[_ ->]|[W' _]]; [right; reflexivity|contradiction].
    + exfalso. apply Hb.
      destruct S as [[_ ->]|[_ ->]]; [right; reflexivity|now apply M].
Qed.

(** X5. The two keyword tests ignore the case of ASCII letters: two texts
    that differ only in that get the same line from
    [validate_id_document] and the same line from
    [assess_behavioral_risk]. *)
Theorem keyword_tests_ignore_ascii_case (s s' : str) :
  same_up_to_ascii_case s s' ->
  validate_id_document unicode_lower s = validate_id_document unicode_lower s' /\
  assess_behavioral_risk unicode_lower s = assess_behavioral_risk unicode_lower s'.
Proof.
  intros H.
  rewrite !validate_id_document_any_case, !assess_behavioral_risk_any_case.
  rewrite (str_in_any_case_congr _ s s' keyword_ok_forged H),
          (str_in_any_case_congr _ s s' keyword_ok_bot_like H),
          (str_in_any_case_congr _ s s' keyword_ok_unusual H).
  split; reflexivity.
Qed.

(** X6. Text added around a flagged text never clears it: when a text is
    rejected as forged, or raises the behavioural warning, so does every
    text in which it occurs. *)
Theorem keyword_tests_closed_under_extension (s s' : str) :
  occurs s s' ->
  (validate_id_document unicode_lower s =
     CROSS_MARK ++ lit " Document invalid: suspected forgery." ->
   validate_id_document unicode_lower s' =
     CROSS_MARK ++ lit " Document invalid: suspected forgery.") /\
  (assess_behavioral_risk unicode_lower s =
     WARNING_SIGN ++ lit " Behavioral risk detected." ->
   assess_behavioral_risk unicode_lower s' =
     WARNING_SIGN ++ lit " Behavioral risk detected.").
Proof.
  intros Hs.
  rewrite !validate_id_document_any_case, !assess_behavioral_risk_any_case.
  split.
  - destruct (str_in_any_case (lit "forged") s) eqn:E; [|intros H; discriminate H].
    now rewrite (str_in_any_case_occurs _ s s' Hs E).
  - destruct (str_in_any_case (lit "bot-like") s) eqn:E1.
    + now rewrite (str_in_any_case_occurs _ s s' Hs E1).
    + destruct (str_in_any_case (lit "unusual") s) eqn:E2; [|intros H; discriminate H].
      intros _. rewrite (str_in_any_case_occurs _ s s' Hs E2).
      now rewrite orb_true_r.
Qed.

(** X7. A text shorter than the keyword cannot match, whatever its code
    points lower to: fewer than six code points are always a valid
    document, fewer than seven always normal behaviour. *)
Theorem keyword_tests_short_text (s : str) :
  ((List.length s < 6)%nat ->
   validate_id_document unicode_lower s = CHECK_MARK ++ lit " Document valid.") /\
  ((List.length s < 7)%nat ->
   assess_behavioral_risk unicode_lower s =
     CHECK_MARK ++ lit " Behavior appears normal.").
Proof.
  rewrite validate_id_document_any_case, assess_behavioral_risk_any_case.
  split; intros L.
  - destruct (str_in_any_case (lit "forged") s) eqn:E; [|reflexivity].
    apply str_in_any_case_length in E. cbn in E. lia.
  - destruct (str_in_any_case (lit "bot-like") s) eqn:E1.
    { apply str_in_any_case_length in E1. cbn in E1. lia. }
    destruct (str_in_any_case (lit "unusual") s) eqn:E2; [|reflexivity].
    apply str_in_any_case_length in E2. cbn in E2. lia.
Qed.

End KeywordProperties.

Lemma occurs_In (x : codepoint) (t s : str) : occurs t s -> In x t -> In x s.
Proof.
  intros (pre & post & ->) H. apply in_or_app. right.
  apply in_or_app. now left.
Qed.

(** X9. The red-flag test needs the code point of the cross mark or the
    variation selector that ends the warning sign: inputs with neither,
    a bare warning sign U+26A0 among them, combine to the low-risk line. *)
Theorem combine_risk_signals_needs_marker_code_points (a b c : str) :
  (forall flag, In flag [a; b; c] -> ~ In 0x274C flag /\ ~ In 0xFE0F flag) ->
  says (combine_risk_signals a b c) CHECK_MARK OK
       (lit "Low Risk: Auto-approve onboarding.").
Proof.
  intros H.
  assert (Hok : forall flag, In flag [a; b; c] -> ~ alarming flag).
  { intros flag Hin Ha. destruct (H flag Hin) as [Hx Hv].
    apply alarming_marked in Ha as [Ho|Ho].
    - apply Hx. apply (occurs_In _ _ _ Ho). now left.
    - apply Hv. apply (occurs_In _ _ _ Ho). right. now left. }
  destruct (combine_risk_signals_cases a b c) as [[[F|[F|F]] _]|[_ E]].
  - exfalso. revert F. apply Hok. now left.
  - exfalso. revert F. apply Hok. right. now left.
  - exfalso. revert F. apply Hok. right. right. now left.
  - now apply says_low.
Qed.

Lemma screen_against_sanctions_injective_witness :
  screen_against_sanctions (lit "John Doe") <> screen_against_sanctions (lit "john doe").
Proof.
  apply screen_against_sanctions_injective. intros H. discriminate H.
Defined.

Lemma screen_against_sanctions_alarming_witness :
  alarming (screen_against_sanctions (lit "Jane " ++ WARNING_SIGN ++ lit " Smith")).
Proof.
  apply (proj2 (screen_against_sanctions_alarming _)).
  right. right. exists (lit "Jane "), (lit " Smith"). reflexivity.
Defined.

Lemma combine_risk_signals_result_reads_OK_witness :
  says (combine_risk_signals
          (combine_risk_signals
             (CROSS_MARK ++ lit " Document invalid: suspected forgery.")
             (CROSS_MARK ++ lit " John Doe flagged on sanctions list.")
             (WARNING_SIGN ++ lit " Behavioral risk detected."))
          (CHECK_MARK ++ lit " Jane Smith is clear.")
          (CHECK_MARK ++ lit " Behavior appears normal."))
       CHECK_MARK OK (lit "Low Risk: Auto-approve onboarding.").
Proof.
  apply (proj2 (combine_risk_signals_result_reads_OK _ _ _)); reflexivity.
Defined.

Lemma screen_against_sanctions_padded_clear_witness :
  says (screen_against_sanctions (lit "Mr " ++ lit "John Doe" ++ lit " "))
       CHECK_MARK OK ((lit "Mr " ++ lit "John Doe" ++ lit " ") ++ lit " is clear.").
Proof.
  apply screen_against_sanctions_padded_clear.
  - left. reflexivity.
  - intros H. discriminate H.
Defined.

Lemma combine_risk_signals_needs_marker_code_points_witness :
  says (combine_risk_signals (CHECK_MARK ++ lit " Document valid.")
                             (CHECK_MARK ++ lit " Jane Smith is clear.")
                             ([0x26A0] ++ lit " Behavioral risk detected."))
       CHECK_MARK OK (lit "Low Risk: Auto-approve onboarding.").
Proof.
  apply combine_risk_signals_needs_marker_code_points.
  intros flag [<-|[<-|[<-|[]]]]; split; intros H;
    repeat (destruct H as [H|H]; [discriminate H|]); exact H.
Defined.

Lemma kyc_evaluation_spec_witness :
  says (combine_risk_signals
          (validate_id_document latin1_lower (lit "Valid passport"))
          (screen_against_sanctions (lit "Jane Smith"))
          (assess_behavioral_risk latin1_lower (lit "UNUSUAL login hours")))
       ROTATING_LIGHT REJECT (lit "High Risk: Escalate to manual review.") /\
  says (combine_risk_signals
          (validate_id_document latin1_lower (lit "Valid passport"))
          (screen_against_sanctions (lit "john doe"))
          (assess_behavioral_risk latin1_lower (lit "Normal typing speed")))
       CHECK_MARK OK (lit "Low Risk: Auto-approve onboarding.").
Proof.
  split.
  - apply (proj1 (kyc_evaluation_spec latin1_lower latin1_lower_ok _ _ _)).
    right. right. right. apply str_in_any_case_spec. reflexivity.
  - apply (proj2 (kyc_evaluation_spec latin1_lower latin1_lower_ok _ _ _)).
    intros [H|[[[H|H]|H]|[H|H]]];
      try (apply str_in_any_case_spec in H; discriminate H);
      try discriminate H.
    apply alarming_marked, alarming_iff in H. discriminate H.
Defined.

Lemma keyword_tests_ignore_ascii_case_witness :
  validate_id_document latin1_lower (lit "FORGED id") =
    validate_id_document latin1_lower (lit "forged ID") /\
  assess_behavioral_risk latin1_lower (lit "FORGED id") =
    assess_behavioral_risk latin1_lower (lit "forged ID").
Proof.
  apply (keyword_tests_ignore_ascii_case latin1_lower latin1_lower_ok).
  repeat constructor.
Defined.

Lemma keyword_tests_closed_under_extension_witness :
  validate_id_document latin1_lower (lit "a Forged visa") =
  CROSS_MARK ++ lit " Document invalid: suspected forgery.".
Proof.
  assert (H : occurs (lit "Forged") (lit "a Forged visa")).
  { exists (lit "a "), (lit " visa"). reflexivity. }
  apply (proj1 (keyword_tests_closed_under_extension latin1_lower latin1_lower_ok
                  (lit "Forged") (lit "a Forged visa") H)).
  reflexivity.
Defined.

Lemma keyword_tests_short_text_witness :
  validate_id_document latin1_lower (lit "forge") = CHECK_MARK ++ lit " Document valid." /\
  assess_behavioral_risk latin1_lower (lit "unusua") =
    CHECK_MARK ++ lit " Behavior appears normal.".
Proof.
  split.
  - apply (proj1 (keyword_tests_short_text latin1_lower latin1_lower_ok _)).
    cbn. lia.
  - apply (proj2 (keyword_tests_short_text latin1_lower latin1_lower_ok _)).
    cbn. lia.
Defined.

(** ** The decision on the lines of the evaluators

    What a line announces (its leading marker) and what
    [combine_risk_signals] reads in it (a marker anywhere) agree on the
    lines of the evaluators whose OK messages carry no marker.  Off those
    lines they differ. *)

Lemma str_in_head (m rest : str) : str_in m (m ++ rest) = true.
Proof. apply str_in_spec. now exists [], rest. Qed.

Lemma alarming_check_line (msg : str) :
  alarming (CHECK_MARK ++ lit " " ++ msg) <-> marked msg.
Proof.
  rewrite <- alarming_marked, !alarming_iff.
  change (CHECK_MARK ++ lit " " ++ msg) with (9989 :: 32 :: msg).
  unfold CROSS_MARK, WARNING_SIGN.
  rewrite !str_in_cons_neq by (intros H; discriminate H). reflexivity.
Qed.

(** Reading back what was rendered gives the status. *)
Lemma read_status_render (r : RiskStatus) : read_status (render r) = Some r.
Proof. destruct r as [[] msg]; reflexivity. Qed.

Lemma level_of_render (r : RiskStatus) : level_of (render r) = Some (severity r).
Proof. unfold level_of. now rewrite read_status_render. Qed.

Lemma risk_signal_intro (v : Severity) (msg : str) :
  (v = OK -> str_in CROSS_MARK msg || str_in WARNING_SIGN msg = false) ->
  risk_signal (marker_of v ++ lit " " ++ msg).
Proof.
  intros H. exists {| severity := v; message := msg |}. split; [reflexivity|].
  cbn [severity message]. intros E M. apply H in E.
  apply alarming_marked, alarming_iff in M. congruence.
Qed.

(** The evaluators write such lines: the document and the behaviour
    check always, the sanctions check whenever neither marker occurs in
    the name. *)
Lemma evaluators_write_risk_signals
    (unicode_lower : str -> codepoint -> str -> str)
    (document_text full_name behavior_data : str) :
  risk_signal (validate_id_document unicode_lower document_text) /\
  (~ marked full_name -> risk_signal (screen_against_sanctions full_name)) /\
  risk_signal (assess_behavioral_risk unicode_lower behavior_data).
Proof.
  split; [|split].
  - unfold validate_id_document. destruct (str_in _ _).
    + apply (risk_signal_intro REJECT (lit "Document invalid: suspected forgery.")).
      intros H. discriminate H.
    + apply (risk_signal_intro OK (lit "Document valid.")). reflexivity.
  - intros N.
    destruct (screen_against_sanctions_cases full_name) as [[_ ->]|[_ ->]].
    + apply (risk_signal_intro REJECT (full_name ++ lit " flagged on sanctions list.")).
      intros H. discriminate H.
    + apply (risk_signal_intro OK (full_name ++ lit " is clear.")). intros _.
      destruct (str_in CROSS_MARK (full_name ++ lit " is clear.")
                || str_in WARNING_SIGN (full_name ++ lit " is clear.")) eqn:E;
        [|reflexivity].
      elim N. apply alarming_clear_line, alarming_check_line.
      now apply alarming_marked, alarming_iff.
  - unfold assess_behavioral_risk. destruct (_ || _).
    + apply (risk_signal_intro WARNING (lit "Behavioral risk detected.")).
      intros H. discriminate H.
    + apply (risk_signal_intro OK (lit "Behavior appears normal.")). reflexivity.
Qed.

(** On such a line the combinator reads a red flag exactly when the line
    announces a level other than OK. *)
Lemma risk_signal_reads (x : str) :
  risk_signal x ->
  exists v, level_of x = Some v /\ (alarming x <-> v <> OK).
Proof.
  intros ([v msg] & -> & Hok). cbn [severity message] in Hok.
  exists v. split; [apply level_of_render|].
  unfold render. cbn [severity message]. destruct v; cbn [marker_of].
  - rewrite alarming_check_line. split; [intros M; now elim (Hok eq_refl)|].
    intros N. now elim N.
  - split; [discriminate|intros _]. apply alarming_iff, orb_true_iff.
    right. apply str_in_head.
  - split; [discriminate|intros _]. apply alarming_iff, orb_true_iff.
    left. apply str_in_head.
Qed.


Lemma risk_signal_quiet (x : str) :
  risk_signal x -> signal_severity x = OK -> level_of x = Some OK.
Proof.
  intros S H. destruct (risk_signal_reads x S) as (v & L & F).
  apply not_alarming_iff in H. rewrite L. destruct v; [reflexivity| |];
    elim H; apply F; discriminate.
Qed.



(** C2, as amended. For every three lines of the evaluators whose OK
    messages carry no marker, the level of the result is the maximum of
    the three announced levels sent to the top when it is above OK:
    REJECT when the maximum is WARNING or REJECT, OK when it is OK. *)
Theorem combine_risk_signals_escalated_max (a b c : str) :
  risk_signal a -> risk_signal b -> risk_signal c ->
  exists va vb vc,
    level_of a = Some va /\ level_of b = Some vb /\ level_of c = Some vc /\
    level_of (combine_risk_signals a b c) =
      Some (escalate (sev_max va (sev_max vb vc))).
Proof.
  intros Sa Sb Sc.
  destruct (risk_signal_reads a Sa) as (va & La & Fa).
  destruct (risk_signal_reads b Sb) as (vb & Lb & Fb).
  destruct (risk_signal_reads c Sc) as (vc & Lc & Fc).
  exists va, vb, vc. repeat (split; [assumption|]).
  destruct (combine_risk_signals_cases a b c) as [[H ->] | [(Ha & Hb & Hc) ->]].
  - rewrite Fa, Fb, Fc in H.
    destruct va, vb, vc; try reflexivity.
    exfalso. destruct H as [H|[H|H]]; now elim H.
  - pose proof (risk_signal_quiet a Sa Ha) as Qa.
    pose proof (risk_signal_quiet b Sb Hb) as Qb.
    pose proof (risk_signal_quiet c Sc Hc) as Qc.
    rewrite La in Qa. rewrite Lb in Qb. rewrite Lc in Qc.
    injection Qa as ->. injection Qb as ->. injection Qc as ->. reflexivity.
Qed.




Lemma combine_risk_signals_escalated_max_witness :
  exists va vb vc,
    level_of (CHECK_MARK ++ lit " Document valid.") = Some va /\
    level_of (CHECK_MARK ++ lit " Jane Smith is clear.") = Some vb /\
    level_of (WARNING_SIGN ++ lit " Behavioral risk detected.") = Some vc /\
    level_of (combine_risk_signals (CHECK_MARK ++ lit " Document valid.")
                                   (CHECK_MARK ++ lit " Jane Smith is clear.")
                                   (WARNING_SIGN ++ lit " Behavioral risk detected.")) =
      Some (escalate (sev_max va (sev_max vb vc))).
Proof.
  apply combine_risk_signals_escalated_max.
  - apply (risk_signal_intro OK (lit "Document valid.")). reflexivity.
  - apply (risk_signal_intro OK (lit "Jane Smith is clear.")). reflexivity.
  - apply (risk_signal_intro WARNING (lit "Behavioral risk detected.")).
    intros H. discriminate H.
Defined.

